(** * remove-white-background.py: a shallow embedding and its properties

    The script [extension/tools/remove-white-background.py] opens an image
    with Pillow, makes every near-white pixel of every frame transparent and
    writes the result as a GIF.  This file embeds the script (the function
    [remove_white_background] and the [__main__] block) together with the
    part of Pillow's [Image] interface the script calls, and proves the
    properties the specification states about it. *)

From Stdlib Require Import ZArith String Ascii.
From stdpp Require Import base list strings gmap.
From Equations Require Import Equations.
From Equations.Prop Require Import Logic.

Local Open Scope string_scope.
Local Open Scope Z_scope.
Local Open Scope list_scope.

(** ** Python exceptions *)

(** The exception classes that matter for the script's control flow: the
    inner handlers catch [EOFError] only, the outer handler catches every
    [Exception]. *)
Inductive ExcClass :=
  | EOFError
  | IndexError
  | ValueError
  | OSError
  | FileNotFoundError
  | UnidentifiedImageError.

Record Exc := mkExc { exc_class : ExcClass; exc_msg : string }.

Definition is_EOFError (e : Exc) : bool :=
  match exc_class e with EOFError => true | _ => false end.

(** A computation that either raises or returns. *)
Definition Res (A : Type) : Type := Exc + A.

Definition raise {A} (e : Exc) : Res A := inl e.

Definition res_bind {A B} (m : Res A) (k : A -> Res B) : Res B :=
  match m with
  | inl e => inl e
  | inr a => k a
  end.

Declare Scope res_scope.
Delimit Scope res_scope with res.
Notation "'do' x <- m ; k" := (res_bind m (fun x => k))
  (at level 10, x pattern, m at level 100, k at level 200) : res_scope.

(** ** Pixels and images *)

(** An RGBA pixel, the 4-tuple [pixels[x, y]] yields. *)
Definition Pixel : Type := Z * Z * Z * Z.

Definition channel_ok (c : Z) : Prop := 0 <= c <= 255.

Definition pixel_ok (p : Pixel) : Prop :=
  let '(r, g, b, a) := p in
  channel_ok r /\ channel_ok g /\ channel_ok b /\ channel_ok a.

(** Pillow's image modes; the script only compares the mode with ['RGBA']. *)
Inductive Mode := mode_1 | mode_L | mode_P | mode_RGB | mode_RGBA.

Definition mode_is_RGBA (m : Mode) : bool :=
  match m with mode_RGBA => true | _ => false end.

(** One frame of an image.  [fr_pixels] is what decoding the frame
    ([load]) gives: an exception for damaged data, otherwise the raster in
    row-major order.  The raster is recorded by its RGBA rendering, the
    values [convert('RGBA')] produces, and [fr_mode] records the layout the
    decoder delivers.  [fr_info] is the [info] dictionary Pillow exposes
    while the image is positioned on the frame. *)
Record Frame := mkFrame {
  fr_mode : Mode;
  fr_width : nat;
  fr_height : nat;
  fr_pixels : Res (list Pixel);
  fr_info : gmap string Z
}.

(** A Pillow image object, whether an image file with several frames or an
    image in memory (one frame): the frames, and the position [seek] moved
    to.  [format] is [None] for an image that was not read from a file. *)
Record Image := mkImage {
  format : option string;
  frames_of : list Frame;
  tell : nat
}.

Definition current (img : Image) : Res Frame :=
  match frames_of img !! tell img with
  | Some f => inr f
  | None => raise (mkExc ValueError "image has no such frame")
  end.

Definition mode (img : Image) : Res Mode :=
  (do f <- current img; inr (fr_mode f))%res.

Definition size (img : Image) : Res (nat * nat) :=
  (do f <- current img; inr (fr_width f, fr_height f))%res.

Definition info (img : Image) : Res (gmap string Z) :=
  (do f <- current img; inr (fr_info f))%res.

(** [dict.get(key, default)]. *)
Definition dict_get (d : gmap string Z) (key : string) (default : Z) : Z :=
  match d !! key with
  | Some v => v
  | None => default
  end.

(** [Image.seek]: an [EOFError] beyond the last frame, and the position is
    kept. *)
Definition seek (img : Image) (n : nat) : Res Image :=
  if bool_decide (n < length (frames_of img))%nat
  then inr (mkImage (format img) (frames_of img) n)
  else raise (mkExc EOFError "no more images in file").

(** [Image.copy]: decodes the current frame and returns it as an image in
    memory, with a copy of [info]. *)
Definition copy (img : Image) : Res Image :=
  (do f <- current img;
   do px <- fr_pixels f;
   inr (mkImage None
          [mkFrame (fr_mode f) (fr_width f) (fr_height f) (inr px) (fr_info f)]
          0))%res.

(** [Image.convert('RGBA')]: decodes the current frame and returns its
    RGBA rendering as a new image in memory.  The result is a plain image:
    the other frames of the file are not part of it. *)
Definition convert_RGBA (img : Image) : Res Image :=
  (do f <- current img;
   do px <- fr_pixels f;
   inr (mkImage None
          [mkFrame mode_RGBA (fr_width f) (fr_height f) (inr px) (fr_info f)]
          0))%res.

(** The pixel access object of [frame.load()]: reading and writing
    [pixels[x, y]], with an [IndexError] outside the raster. *)
Definition getpixel (f : Frame) (x y : nat) : Res Pixel :=
  (do px <- fr_pixels f;
   if bool_decide (x < fr_width f)%nat && bool_decide (y < fr_height f)%nat
   then match px !! (y * fr_width f + x)%nat with
        | Some p => inr p
        | None => raise (mkExc IndexError "image index out of range")
        end
   else raise (mkExc IndexError "image index out of range"))%res.

Definition putpixel (f : Frame) (x y : nat) (p : Pixel) : Res Frame :=
  (do px <- fr_pixels f;
   if bool_decide (x < fr_width f)%nat && bool_decide (y < fr_height f)%nat
   then inr (mkFrame (fr_mode f) (fr_width f) (fr_height f)
               (inr (<[(y * fr_width f + x)%nat := p]> px)) (fr_info f))
   else raise (mkExc IndexError "image index out of range"))%res.

(** A frame whose raster has one pixel per coordinate. *)
Definition frame_ok (f : Frame) : Prop :=
  exists px, fr_pixels f = inr px /\
             length px = (fr_height f * fr_width f)%nat.

(** ** The per-pixel transform (lines 42-47) *)

(** [for i in range(n)] over a body that may raise. *)
Fixpoint for_range {S : Type} (start n : nat) (body : nat -> S -> Res S)
    (s : S) : Res S :=
  match n with
  | O => inr s
  | Datatypes.S n' =>
      (do s' <- body start s; for_range (Datatypes.S start) n' body s')%res
  end.

(** The body of the inner loop: lines 44-47. *)
Definition pixel_step (threshold : Z) (y x : nat) (f : Frame) : Res Frame :=
  (do p <- getpixel f x y;
   let '(r, g, b, a) := p in
   if bool_decide (r > threshold) && bool_decide (g > threshold)
        && bool_decide (b > threshold)
   then putpixel f x y (r, g, b, 0)
   else inr f)%res.

(** Lines 42-47: both loops over the raster of one frame. *)
Definition make_white_transparent (threshold : Z) (f : Frame) : Res Frame :=
  for_range 0 (fr_height f)
    (fun y f1 => for_range 0 (fr_width f) (pixel_step threshold y) f1) f.

(** What the loop body does to one pixel value. *)
Definition clear_if_white (threshold : Z) (p : Pixel) : Pixel :=
  let '(r, g, b, a) := p in
  if bool_decide (r > threshold) && bool_decide (g > threshold)
       && bool_decide (b > threshold)
  then (r, g, b, 0)
  else p.

(** ** The outside world: files, standard output *)

(** The arguments of one call of [Image.save]: the image it is called on
    and the keyword arguments, [None] for a keyword that is not passed. *)
Record SaveCall := mkSaveCall {
  sc_image : Image;
  sc_save_all : bool;
  sc_append_images : list Image;
  sc_duration : option (list Z);
  sc_loop : option Z;
  sc_transparency : option Z;
  sc_disposal : option Z
}.

(** What the script does to the outside world, in order. *)
Inductive Event :=
  | EvExists (path : string)
  | EvMakedirs (path : string)
  | EvOpen (path : string)
  | EvSave (path : string) (call : SaveCall)
  | EvPrint (line : string)
  | EvTraceback (e : Exc).

(** The answers of the file system and of Pillow's codecs: whether a path
    exists, whether creating a directory or writing an image raises, and
    what opening a path gives. *)
Record World := mkWorld {
  os_path_exists : string -> bool;
  os_makedirs : string -> option Exc;
  Image_open : string -> Res Image;
  Image_save : string -> SaveCall -> option Exc
}.

(** A computation that acts on the world: the events so far and the
    outcome. *)
Definition Run (A : Type) : Type := list Event * Res A.

Definition run_ret {A} (a : A) : Run A := ([], inr a).

Definition run_bind {A B} (m : Run A) (k : A -> Run B) : Run B :=
  match m with
  | (tr, inl e) => (tr, inl e)
  | (tr, inr a) => let '(tr', r) := k a in (tr ++ tr', r)
  end.

Definition lift {A} (r : Res A) : Run A := ([], r).

Definition emit (ev : Event) : Run unit := ([ev], inr tt).

Definition print (line : string) : Run unit := emit (EvPrint line).

(** [try: m except Exception as e: handler e]. *)
Definition try_except {A} (m : Run A) (handler : Exc -> Run A) : Run A :=
  match m with
  | (tr, inl e) => let '(tr', r) := handler e in (tr ++ tr', r)
  | (tr, inr a) => (tr, inr a)
  end.

Declare Scope run_scope.
Delimit Scope run_scope with M.
Notation "'run' x <- m ; k" := (run_bind m (fun x => k))
  (at level 10, x pattern, m at level 100, k at level 200) : run_scope.

Definition open_image (w : World) (path : string) : Run Image :=
  (run _ <- emit (EvOpen path); lift (Image_open w path))%M.

Definition save (w : World) (path : string) (call : SaveCall) : Run unit :=
  (run _ <- emit (EvSave path call);
   lift (match Image_save w path call with
         | Some e => inl e
         | None => inr tt
         end))%M.

(** ** remove_white_background *)

(** [str(img.format)]. *)
Definition format_str (fmt : option string) : string :=
  match fmt with
  | Some s => s
  | None => "None"
  end.

Definition format_is_GIF (fmt : option string) : bool :=
  match fmt with
  | Some s => String.eqb s "GIF"
  | None => false
  end.

(** The image with its current frame replaced: the effect, on the image
    object, of the writes through [pixels]. *)
Definition set_current (img : Image) (f : Frame) : Image :=
  mkImage (format img) (<[tell img := f]> (frames_of img)) (tell img).

(** Lines 31-47: the frame that one turn of the loop appends. *)
Definition process_frame (threshold : Z) (img : Image) : Res Image :=
  (do frame <- copy img;
   do m <- mode frame;
   do frame <- (if mode_is_RGBA m then inr frame else convert_RGBA frame);
   do pixels <- current frame;
   do pixels' <- make_white_transparent threshold pixels;
   inr (set_current frame pixels'))%res.

(** Lines 28-54: [while True] until [seek] raises [EOFError].  The handler
    of line 53 catches an [EOFError] from anywhere in the loop body; the
    frames appended so far are kept. *)
Equations? frames_loop (threshold : Z) (img : Image) (frames : list Image)
    : Res (Image * list Image)
    by wf (length (frames_of img) - tell img)%nat lt :=
  frames_loop threshold img frames with process_frame threshold img => {
    | inl e := if is_EOFError e then inr (img, frames) else inl e;
    | inr frame with inspect (seek img (tell img + 1)) => {
        | exist _ (inl e) _ :=
            if is_EOFError e then inr (img, frames ++ [frame]) else inl e;
        | exist _ (inr img') Hseek :=
            frames_loop threshold img' (frames ++ [frame]) } }.
Proof.
  unfold seek in Hseek. case_bool_decide; [|discriminate].
  injection Hseek as <-. simpl. lia.
Qed.

(** Lines 62-64: [while True] over the frames, reading each duration. *)
Equations? durations_loop (img : Image) (durations : list Z)
    : Res (Image * list Z)
    by wf (length (frames_of img) - tell img)%nat lt :=
  durations_loop img durations with info img => {
    | inl e := if is_EOFError e then inr (img, durations) else inl e;
    | inr d with inspect (seek img (tell img + 1)) => {
        | exist _ (inl e) _ :=
            if is_EOFError e
            then inr (img, durations ++ [dict_get d "duration" 100])
            else inl e;
        | exist _ (inr img') Hseek :=
            durations_loop img' (durations ++ [dict_get d "duration" 100]) } }.
Proof.
  unfold seek in Hseek. case_bool_decide; [|discriminate].
  injection Hseek as <-. simpl. lia.
Qed.

(** Lines 59-66. *)
Definition read_durations (img : Image) : Res (Image * list Z) :=
  match seek img 0 with
  | inl e => if is_EOFError e then inr (img, []) else inl e
  | inr img0 => durations_loop img0 []
  end.

(** [frames[i]]. *)
Definition list_index {A} (l : list A) (i : nat) : Res A :=
  match l !! i with
  | Some a => inr a
  | None => raise (mkExc IndexError "list index out of range")
  end.

(** Lines 57-80: the arguments of the call of [save]. *)
Definition save_call (img : Image) (frames : list Image) : Res SaveCall :=
  if bool_decide (1 < length frames)%nat then
    (do r <- read_durations img;
     let '(img1, durations) := r in
     do first <- list_index frames 0;
     do d <- info img1;
     inr (mkSaveCall first true (drop 1 frames)
            (Some (match durations with
                   | [] => replicate (length frames) 100
                   | _ => durations
                   end))
            (Some (dict_get d "loop" 0)) (Some 0) (Some 2)))%res
  else
    (do first <- list_index frames 0;
     inr (mkSaveCall first false [] None None (Some 0) None))%res.

(** Lines 56-80: the one call of [save]. *)
Definition encode (w : World) (output_path : string) (img : Image)
    (frames : list Image) : Run unit :=
  (run call <- lift (save_call img frames);
   save w output_path call)%M.

(** The line printed for an image that is not a GIF (line 20). *)
Definition warning_line (input_path : string) (fmt : option string) : string :=
  "Warning: " +:+ input_path +:+ " is not a GIF, but " +:+ format_str fmt.

(** Lines 22-80: what is done with the opened image. *)
Definition process_image (w : World) (output_path : string) (threshold : Z)
    (img : Image) : Run unit :=
  (run m <- lift (mode img);
   run img <- lift (if mode_is_RGBA m then inr img else convert_RGBA img);
   run r <- lift (frames_loop threshold img []);
   let '(img, frames) := r in
   encode w output_path img frames)%M.

(** Lines 16-80: decode, transform, encode. *)
Definition process (w : World) (input_path output_path : string)
    (threshold : Z) : Run unit :=
  (run img <- open_image w input_path;
   run _ <- (if format_is_GIF (format img) then run_ret tt
             else print (warning_line input_path (format img)));
   process_image w output_path threshold img)%M.

Definition success_line (input_path : string) : string :=
  "✅ Successfully removed white background from " +:+ input_path.

Definition saved_line (output_path : string) : string :=
  "   Saved to: " +:+ output_path.

Definition error_line (input_path : string) (e : Exc) : string :=
  "❌ Error processing " +:+ input_path +:+ ": " +:+ exc_msg e.

(** Lines 9-88. *)
Definition remove_white_background (w : World)
    (input_path output_path : string) (threshold : Z) : Run bool :=
  try_except
    (run _ <- process w input_path output_path threshold;
     run _ <- print (success_line input_path);
     run _ <- print (saved_line output_path);
     run_ret true)%M
    (fun e => (run _ <- print (error_line input_path e); run_ret false)%M).

(** ** The [__main__] block *)

(** [posixpath.dirname]: the path up to its last separator, trailing
    separators dropped unless nothing else is left. *)
Definition is_sep (c : ascii) : bool := Ascii.eqb c "/".

Fixpoint all_sep (p : string) : bool :=
  match p with
  | EmptyString => true
  | String c p' => is_sep c && all_sep p'
  end.

(** [p[:p.rfind('/') + 1]]. *)
Fixpoint upto_last_sep (p : string) : string :=
  match p with
  | EmptyString => EmptyString
  | String c p' =>
      match upto_last_sep p' with
      | EmptyString => if is_sep c then String c EmptyString else EmptyString
      | h => String c h
      end
  end.

(** [head.rstrip('/')]. *)
Fixpoint rstrip_sep (p : string) : string :=
  match p with
  | EmptyString => EmptyString
  | String c p' =>
      match rstrip_sep p' with
      | EmptyString => if is_sep c then EmptyString else String c EmptyString
      | t => String c t
      end
  end.

Definition dirname (p : string) : string :=
  let head := upto_last_sep p in
  if negb (String.eqb head "") && negb (all_sep head)
  then rstrip_sep head
  else head.

Definition input_file : string :=
  "/Users/kiki/Downloads/corgi-gif-running.gif".

Definition output_file : string :=
  "/Users/kiki/Documents/HERODOTUS/ETHGLOBAL_2025/good-old-wallet/extension/public/corgi-running.gif".

Definition path_exists (w : World) (path : string) : Run bool :=
  (run _ <- emit (EvExists path); run_ret (os_path_exists w path))%M.

Definition makedirs (w : World) (path : string) : Run unit :=
  (run _ <- emit (EvMakedirs path);
   lift (match os_makedirs w path with
         | Some e => inl e
         | None => inr tt
         end))%M.

(** Lines 91-102.  The outcome is the argument of [sys.exit]. *)
Definition main_block (w : World) : Run Z :=
  (run found <- path_exists w input_file;
   if negb found then
     run _ <- print ("❌ Input file not found: " +:+ input_file);
     run_ret 1
   else
     run _ <- makedirs w (dirname output_file);
     run success <-
       remove_white_background w input_file output_file 240;
     run_ret (if success : bool then 0 else 1))%M.

(** The process: an exception that reaches the top level is reported by
    the interpreter with a traceback and the exit code is 1. *)
Definition main (w : World) : list Event * Z :=
  match main_block w with
  | (tr, inr code) => (tr, code)
  | (tr, inl e) => (tr ++ [EvTraceback e], 1)
  end.

(** ** Vocabulary of the statements *)

(** The frame with another raster. *)
Definition with_pixels (f : Frame) (px : list Pixel) : Frame :=
  mkFrame (fr_mode f) (fr_width f) (fr_height f) (inr px) (fr_info f).

(** The raster after the loops have visited the first [k] pixels. *)
Definition visited (threshold : Z) (k : nat) (px : list Pixel) : list Pixel :=
  (clear_if_white threshold <$> take k px) ++ drop k px.

(** The image under another format name. *)
Definition with_format (fmt : option string) (img : Image) : Image :=
  mkImage fmt (frames_of img) (tell img).

(** The lines written to standard output. *)
Definition printed (tr : list Event) : list string :=
  omap (fun ev => match ev with EvPrint l => Some l | _ => None end) tr.

(** The paths [Image.open] was called on. *)
Definition opened (tr : list Event) : list string :=
  omap (fun ev => match ev with EvOpen p => Some p | _ => None end) tr.

(** The frames a call of [save] writes. *)
Definition written_frames (call : SaveCall) : list Image :=
  sc_image call :: (if sc_save_all call then sc_append_images call else []).

(** The calls of [save]. *)
Definition save_calls (tr : list Event) : list SaveCall :=
  omap (fun ev => match ev with EvSave _ c => Some c | _ => None end) tr.

(** The duration recorded for a frame, 100 when the frame has none. *)
Definition duration_of (f : Frame) : Z := dict_get (fr_info f) "duration" 100.

(** The image one turn of the frame loop appends for the frame [f]: its
    raster transformed, in mode ['RGBA']. *)
Definition transformed (threshold : Z) (f : Frame) : Image :=
  mkImage None
    [mkFrame mode_RGBA (fr_width f) (fr_height f)
       (match fr_pixels f with
        | inl e => inl e
        | inr px => inr (clear_if_white threshold <$> px)
        end)
       (fr_info f)]
    0.

(** The image positioned on its last frame. *)
Definition at_last (img : Image) : Image :=
  mkImage (format img) (frames_of img) (length (frames_of img) - 1).

(** The world in which the file that is opened is a GIF, everything else
    being the same. *)
Definition as_gif (w : World) : World :=
  mkWorld (os_path_exists w) (os_makedirs w)
    (fun path => match Image_open w path with
                 | inl e => inl e
                 | inr img => inr (with_format (Some "GIF") img)
                 end)
    (Image_save w).

(** ** Sample inputs *)

(** The 2x2 frame of the specification's scenario. *)
Definition scenario_frame : Frame :=
  mkFrame mode_RGBA 2 2
    (inr [(255, 255, 255, 255); (250, 250, 250, 255);
          (0, 0, 0, 255); (200, 200, 200, 255)])
    ∅.

(** A 1x1 frame as a decoder delivers it, with the entries of [info]. *)
Definition sample_frame (m : Mode) (p : Pixel) (entries : list (string * Z))
    : Frame :=
  mkFrame m 1 1 (inr [p]) (list_to_map entries).

(** An animated GIF of three frames with durations 80, 120 and 80 ms that
    loops forever.  Pillow opens a GIF in mode ['P']. *)
Definition animated_gif : Image :=
  mkImage (Some "GIF")
    [sample_frame mode_P (255, 255, 255, 255) [("duration", 80); ("loop", 0)];
     sample_frame mode_P (10, 20, 30, 255) [("duration", 120); ("loop", 0)];
     sample_frame mode_P (250, 250, 250, 255) [("duration", 80); ("loop", 0)]]
    0.

(** The same three frames as an animated PNG, which Pillow opens in mode
    ['RGBA']; its second frame has no duration and it plays twice. *)
Definition animated_png : Image :=
  mkImage (Some "PNG")
    [sample_frame mode_RGBA (255, 255, 255, 255) [("duration", 80); ("loop", 2)];
     sample_frame mode_RGBA (10, 20, 30, 255) [("loop", 2)];
     sample_frame mode_RGBA (250, 250, 250, 255) [("duration", 80); ("loop", 2)]]
    0.

(** A still image in one frame. *)
Definition still_png : Image :=
  mkImage (Some "PNG") [scenario_frame] 0.

(** A world in which every path exists and holds [img], and every write
    succeeds. *)
Definition world_of (img : Image) : World :=
  mkWorld (fun _ => true) (fun _ => None) (fun _ => inr img) (fun _ _ => None).

(** A world without the input file. *)
Definition world_without_input : World :=
  mkWorld (fun _ => false) (fun _ => None)
    (fun _ => raise (mkExc FileNotFoundError "No such file or directory"))
    (fun _ _ => None).

(** A world whose disk is full: every write of an image raises. *)
Definition world_disk_full (img : Image) : World :=
  mkWorld (fun _ => true) (fun _ => None) (fun _ => inr img)
    (fun _ _ => Some (mkExc OSError "No space left on device")).

(** The paths [save] was called on. *)
Definition saved_paths (tr : list Event) : list string :=
  omap (fun ev => match ev with EvSave p _ => Some p | _ => None end) tr.

(** The events the function itself can cause: it opens, saves and prints. *)
Definition function_event (ev : Event) : bool :=
  match ev with
  | EvOpen _ | EvSave _ _ | EvPrint _ => true
  | EvExists _ | EvMakedirs _ | EvTraceback _ => false
  end.

(** The animated PNG with the data of its second frame cut short: decoding
    that frame raises. *)
Definition damaged_png : Image :=
  mkImage (Some "PNG")
    [sample_frame mode_RGBA (255, 255, 255, 255) [("duration", 80)];
     mkFrame mode_RGBA 1 1 (raise (mkExc OSError "image file is truncated"))
       (list_to_map [("duration", 120)]);
     sample_frame mode_RGBA (250, 250, 250, 255) [("duration", 80)]]
    0.

(** A world in which the output directory cannot be made. *)
Definition world_read_only (img : Image) : World :=
  mkWorld (fun _ => true)
    (fun _ => Some (mkExc OSError "Read-only file system"))
    (fun _ => inr img) (fun _ _ => None).

(** * Properties *)

(** ** The per-pixel transform *)

Section Transform.

Variable threshold : Z.

Lemma with_pixels_id f px : fr_pixels f = inr px -> with_pixels f px = f.
Proof. destruct f; simpl; intros ->; reflexivity. Qed.

Lemma visited_0 (px : list Pixel) : visited threshold 0 px = px.
Proof. unfold visited. by rewrite take_0, drop_0. Qed.

Lemma visited_all (px : list Pixel) k :
  (length px <= k)%nat ->
  visited threshold k px = clear_if_white threshold <$> px.
Proof.
  intros Hk. unfold visited.
  rewrite take_ge, drop_ge by lia. apply app_nil_r.
Qed.

Lemma length_visited (px : list Pixel) k :
  length (visited threshold k px) = length px.
Proof.
  unfold visited.
  rewrite length_app, length_fmap, length_take, length_drop. lia.
Qed.

Lemma visited_lookup (px : list Pixel) k :
  visited threshold k px !! k = px !! k.
Proof.
  unfold visited. destruct (decide (k < length px)%nat) as [Hlt|Hge].
  - rewrite lookup_app_r; rewrite length_fmap, length_take; [|lia].
    rewrite lookup_drop. f_equal. lia.
  - rewrite !lookup_ge_None_2; [done|lia|].
    rewrite length_app, length_fmap, length_take, length_drop. lia.
Qed.

Lemma visited_S (px : list Pixel) k p :
  px !! k = Some p ->
  <[k := clear_if_white threshold p]> (visited threshold k px)
  = visited threshold (S k) px.
Proof.
  intros Hp. pose proof (lookup_lt_Some _ _ _ Hp) as Hlt.
  unfold visited.
  rewrite insert_app_r_alt; rewrite length_fmap, length_take; [|lia].
  replace (k - k `min` length px)%nat with 0%nat by lia.
  erewrite (take_S_r px k) by eassumption.
  erewrite (drop_S px p k) by eassumption.
  rewrite fmap_app. simpl. by rewrite <- app_assoc.
Qed.

(** One turn of the inner loop moves the boundary by one pixel. *)
Lemma pixel_step_visited f px x y :
  length px = (fr_height f * fr_width f)%nat ->
  (x < fr_width f)%nat -> (y < fr_height f)%nat ->
  pixel_step threshold y x
    (with_pixels f (visited threshold (y * fr_width f + x) px))
  = inr (with_pixels f (visited threshold (S (y * fr_width f + x)) px)).
Proof.
  intros Hlen Hx Hy.
  assert (y * fr_width f + x < length px)%nat as Hk by nia.
  destruct (lookup_lt_is_Some_2 px _ Hk) as [p Hp].
  unfold pixel_step, getpixel, putpixel. simpl.
  rewrite !bool_decide_eq_true_2 by done. simpl.
  rewrite visited_lookup, Hp. simpl.
  rewrite <- (visited_S _ _ _ Hp).
  destruct p as [[[r g] b] a]. simpl.
  destruct (bool_decide (r > threshold) && bool_decide (g > threshold)
            && bool_decide (b > threshold)) eqn:Hwhite; simpl.
  - reflexivity.
  - rewrite list_insert_id; [reflexivity|]. by rewrite visited_lookup.
Qed.

Lemma row_visited f px y n : forall x,
  length px = (fr_height f * fr_width f)%nat ->
  (x + n <= fr_width f)%nat -> (y < fr_height f)%nat ->
  for_range x n (pixel_step threshold y)
    (with_pixels f (visited threshold (y * fr_width f + x) px))
  = inr (with_pixels f (visited threshold (y * fr_width f + x + n) px)).
Proof.
  induction n as [|n IH]; intros x Hlen Hx Hy; simpl.
  - by rewrite Nat.add_0_r.
  - rewrite pixel_step_visited by (done || lia). simpl.
    replace (S (y * fr_width f + x)) with (y * fr_width f + S x)%nat by lia.
    rewrite IH by (done || lia). do 3 f_equal. lia.
Qed.

Lemma rows_visited f px n : forall y,
  length px = (fr_height f * fr_width f)%nat ->
  (y + n <= fr_height f)%nat ->
  for_range y n
    (fun y f1 => for_range 0 (fr_width f) (pixel_step threshold y) f1)
    (with_pixels f (visited threshold (y * fr_width f) px))
  = inr (with_pixels f (visited threshold ((y + n) * fr_width f) px)).
Proof.
  induction n as [|n IH]; intros y Hlen Hy; simpl.
  - by rewrite Nat.add_0_r.
  - pose proof (row_visited f px y (fr_width f) 0) as Hrow.
    rewrite Nat.add_0_r in Hrow. rewrite Hrow by (done || lia). simpl.
    replace (y * fr_width f + fr_width f)%nat with (S y * fr_width f)%nat
      by lia.
    rewrite IH by (done || lia). do 3 f_equal. lia.
Qed.

(** The loops of lines 42-47 apply [clear_if_white] to every pixel. *)
Lemma make_white_transparent_map f px :
  fr_pixels f = inr px ->
  length px = (fr_height f * fr_width f)%nat ->
  make_white_transparent threshold f
  = inr (with_pixels f (clear_if_white threshold <$> px)).
Proof.
  intros Hpx Hlen. unfold make_white_transparent.
  pose proof (rows_visited f px (fr_height f) 0 Hlen) as Hrows.
  simpl in Hrows. rewrite visited_0, (with_pixels_id _ _ Hpx) in Hrows.
  rewrite Hrows by lia. rewrite visited_all by lia. reflexivity.
Qed.

Lemma clear_if_white_idemp p :
  clear_if_white threshold (clear_if_white threshold p)
  = clear_if_white threshold p.
Proof.
  destruct p as [[[r g] b] a]. unfold clear_if_white.
  destruct (bool_decide (r > threshold) && bool_decide (g > threshold)
            && bool_decide (b > threshold)) eqn:Hwhite; rewrite Hwhite;
    reflexivity.
Qed.

End Transform.

(** C1: for every pixel [(r, g, b, a)] of a frame and every threshold, the
    transform of lines 42-47 leaves [(r, g, b, 0)] at that coordinate when
    [r], [g] and [b] all exceed the threshold, and the pixel itself, with
    its alpha, otherwise.  The alpha channel plays no part in the test. *)
Theorem C1_pixel_rule threshold f x y r g b a :
  frame_ok f ->
  getpixel f x y = inr (r, g, b, a) ->
  exists f',
    make_white_transparent threshold f = inr f' /\
    (r > threshold /\ g > threshold /\ b > threshold ->
     getpixel f' x y = inr (r, g, b, 0)) /\
    (~ (r > threshold /\ g > threshold /\ b > threshold) ->
     getpixel f' x y = inr (r, g, b, a)).
Proof.
  intros (px & Hpx & Hlen) Hget.
  exists (with_pixels f (clear_if_white threshold <$> px)).
  split; [by apply make_white_transparent_map|].
  unfold getpixel in *. rewrite Hpx in Hget. simpl in *.
  destruct (bool_decide (x < fr_width f)%nat && bool_decide (y < fr_height f)%nat);
    [|discriminate].
  rewrite list_lookup_fmap.
  destruct (px !! (y * fr_width f + x)%nat) as [p|]; [|discriminate].
  injection Hget as ->. simpl.
  split; intros Hwhite.
  - destruct Hwhite as (Hr & Hg & Hb).
    by rewrite !bool_decide_eq_true_2.
  - destruct (bool_decide (r > threshold)) eqn:Hr; [|done].
    destruct (bool_decide (g > threshold)) eqn:Hg; [|done].
    destruct (bool_decide (b > threshold)) eqn:Hb; [|done].
    apply bool_decide_eq_true_1 in Hr, Hg, Hb. tauto.
Qed.

Lemma C1_pixel_rule_witness :
  exists f',
    make_white_transparent 240 scenario_frame = inr f' /\
    (250 > 240 /\ 250 > 240 /\ 250 > 240 ->
     getpixel f' 1 0 = inr (250, 250, 250, 0)) /\
    (~ (250 > 240 /\ 250 > 240 /\ 250 > 240) ->
     getpixel f' 1 0 = inr (250, 250, 250, 255)).
Proof.
  apply (C1_pixel_rule 240 scenario_frame 1 0 250 250 250 255).
  - eexists. split; reflexivity.
  - reflexivity.
Defined.

(** The scenario of the specification, run. *)
Example scenario_frame_transformed :
  make_white_transparent 240 scenario_frame
  = inr (with_pixels scenario_frame
           [(255, 255, 255, 0); (250, 250, 250, 0);
            (0, 0, 0, 255); (200, 200, 200, 255)]).
Proof. reflexivity. Qed.

(** C6: applying the transform to its own result changes nothing. *)
Theorem C6_transform_idempotent threshold f :
  frame_ok f ->
  exists f',
    make_white_transparent threshold f = inr f' /\
    make_white_transparent threshold f' = inr f'.
Proof.
  intros (px & Hpx & Hlen).
  exists (with_pixels f (clear_if_white threshold <$> px)).
  split; [by apply make_white_transparent_map|].
  rewrite (make_white_transparent_map _ _ (clear_if_white threshold <$> px));
    [|reflexivity|by rewrite length_fmap].
  unfold with_pixels. simpl. do 3 f_equal.
  rewrite <- list_fmap_compose. apply list_fmap_ext.
  intros i p _. apply clear_if_white_idemp.
Qed.

Lemma C6_transform_idempotent_witness :
  exists f',
    make_white_transparent 240 scenario_frame = inr f' /\
    make_white_transparent 240 f' = inr f'.
Proof.
  apply (C6_transform_idempotent 240 scenario_frame).
  eexists. split; reflexivity.
Defined.

(** C9: with a threshold of 255 or more the transform is the identity on
    every frame of 8-bit pixels. *)
Theorem C9_threshold_255_identity threshold f :
  threshold >= 255 ->
  frame_ok f ->
  (forall px, fr_pixels f = inr px -> Forall pixel_ok px) ->
  make_white_transparent threshold f = inr f.
Proof.
  intros Ht (px & Hpx & Hlen) Hok.
  rewrite (make_white_transparent_map _ _ px Hpx Hlen). f_equal.
  rewrite <- (with_pixels_id f px Hpx) at 2. f_equal.
  rewrite <- (list_fmap_id px) at 2. apply Forall_fmap_ext_1.
  eapply Forall_impl; [exact (Hok px Hpx)|].
  intros [[[r g] b] a] (Hr & _). unfold channel_ok in Hr. simpl.
  rewrite (bool_decide_eq_false_2 (r > threshold)) by lia. reflexivity.
Qed.

Lemma C9_threshold_255_identity_witness :
  make_white_transparent 255 scenario_frame = inr scenario_frame.
Proof.
  apply (C9_threshold_255_identity 255 scenario_frame).
  - lia.
  - eexists. split; reflexivity.
  - intros px [= <-]. repeat constructor; unfold channel_ok; lia.
Defined.

(** ** One turn of the frame loop *)

Lemma process_frame_ok threshold img f :
  current img = inr f ->
  frame_ok f ->
  process_frame threshold img = inr (transformed threshold f).
Proof.
  intros Hcur (px & Hpx & Hlen).
  unfold process_frame, copy, convert_RGBA, mode. rewrite Hcur. simpl.
  rewrite Hpx. simpl.
  destruct (mode_is_RGBA (fr_mode f)) eqn:Hmode; simpl.
  - rewrite (make_white_transparent_map _ _ px) by done.
    destruct (fr_mode f); try discriminate.
    unfold transformed, set_current, with_pixels. simpl. by rewrite Hpx.
  - rewrite (make_white_transparent_map _ _ px) by done.
    unfold transformed, set_current, with_pixels. simpl. by rewrite Hpx.
Qed.

(** The loops, unfolded by one turn. *)
Lemma frames_loop_turn threshold img frames :
  frames_loop threshold img frames
  = match process_frame threshold img with
    | inl e => if is_EOFError e then inr (img, frames) else inl e
    | inr frame =>
        match seek img (tell img + 1) with
        | inl e => if is_EOFError e then inr (img, frames ++ [frame]) else inl e
        | inr img' => frames_loop threshold img' (frames ++ [frame])
        end
    end.
Proof.
  simp frames_loop. destruct (process_frame threshold img) as [e|frame];
    simpl; [reflexivity|].
  generalize (inspect (seek img (tell img + 1))).
  intros [[e|img'] Heq]; simp frames_loop; rewrite Heq; reflexivity.
Qed.

Lemma durations_loop_turn img durations :
  durations_loop img durations
  = match info img with
    | inl e => if is_EOFError e then inr (img, durations) else inl e
    | inr d =>
        match seek img (tell img + 1) with
        | inl e =>
            if is_EOFError e
            then inr (img, durations ++ [dict_get d "duration" 100])
            else inl e
        | inr img' =>
            durations_loop img' (durations ++ [dict_get d "duration" 100])
        end
    end.
Proof.
  simp durations_loop. destruct (info img) as [e|d]; simpl; [reflexivity|].
  generalize (inspect (seek img (tell img + 1))).
  intros [[e|img'] Heq]; simp durations_loop; rewrite Heq; reflexivity.
Qed.

Lemma frames_loop_all threshold n : forall img frames,
  (length (frames_of img) - tell img = S n)%nat ->
  Forall frame_ok (drop (tell img) (frames_of img)) ->
  frames_loop threshold img frames
  = inr (at_last img,
         frames ++ (transformed threshold <$> drop (tell img) (frames_of img))).
Proof.
  induction n as [|n IH]; intros [fmt fs pos] frames Hn Hok; simpl in *;
    destruct (lookup_lt_is_Some_2 fs pos ltac:(lia)) as [f Hf];
    rewrite (drop_S _ _ _ Hf) in Hok |- *;
    apply Forall_cons in Hok as [Hokf Hok];
    rewrite frames_loop_turn;
    rewrite (process_frame_ok threshold _ f) by (done || (unfold current; simpl; by rewrite Hf));
    unfold seek; simpl.
  - rewrite bool_decide_eq_false_2 by lia. simpl.
    rewrite drop_ge by lia. unfold at_last. simpl.
    do 3 f_equal. lia.
  - rewrite bool_decide_eq_true_2 by lia.
    rewrite IH; simpl; [| lia | by replace (pos + 1)%nat with (S pos) by lia].
    unfold at_last. simpl.
    replace (pos + 1)%nat with (S pos) by lia.
    by rewrite <- app_assoc.
Qed.

Lemma durations_loop_all n : forall img durations,
  (length (frames_of img) - tell img = S n)%nat ->
  durations_loop img durations
  = inr (at_last img,
         durations ++ (duration_of <$> drop (tell img) (frames_of img))).
Proof.
  induction n as [|n IH]; intros [fmt fs pos] durations Hn; simpl in *;
    destruct (lookup_lt_is_Some_2 fs pos ltac:(lia)) as [f Hf];
    rewrite (drop_S _ _ _ Hf);
    rewrite durations_loop_turn;
    unfold info, current, seek; simpl; rewrite Hf; simpl.
  - rewrite bool_decide_eq_false_2 by lia. simpl.
    rewrite drop_ge by lia. unfold at_last. simpl.
    do 3 f_equal. lia.
  - rewrite bool_decide_eq_true_2 by lia.
    rewrite IH; simpl; [| lia].
    unfold at_last. simpl.
    replace (pos + 1)%nat with (S pos) by lia.
    by rewrite <- app_assoc.
Qed.

Lemma read_durations_all img :
  frames_of img <> [] ->
  read_durations img = inr (at_last img, duration_of <$> frames_of img).
Proof.
  intros Hne. unfold read_durations, seek.
  assert (0 < length (frames_of img))%nat as Hlen
    by (destruct (frames_of img); simpl; [done|lia]).
  rewrite bool_decide_eq_true_2 by done.
  rewrite (durations_loop_all (length (frames_of img) - 1)); simpl; [done|lia].
Qed.

(** The arguments of [save] when several frames were produced. *)
Lemma save_call_animated img first rest lf :
  rest <> [] ->
  last (frames_of img) = Some lf ->
  save_call img (first :: rest)
  = inr (mkSaveCall first true rest
           (Some (duration_of <$> frames_of img))
           (Some (dict_get (fr_info lf) "loop" 0)) (Some 0) (Some 2)).
Proof.
  intros Hrest Hlast. unfold save_call.
  assert (frames_of img <> []) as Hne by (intros Heq; by rewrite Heq in Hlast).
  rewrite bool_decide_eq_true_2
    by (destruct rest; simpl; [done|lia]).
  rewrite read_durations_all by done. simpl.
  unfold info, current, at_last. simpl.
  rewrite last_lookup in Hlast.
  replace (length (frames_of img) - 1)%nat with (pred (length (frames_of img)))
    by lia.
  rewrite Hlast. simpl. rewrite drop_0.
  destruct (frames_of img); [done|reflexivity].
Qed.

(** ** The whole of lines 16-80 *)


(** An image whose first frame is in another mode is replaced, on line 24,
    by the conversion of that frame alone: one frame is produced and the
    single-frame branch writes it, however many frames the file has. *)
Lemma process_converted_source w input_path output_path threshold img f :
  Image_open w input_path = inr img ->
  current img = inr f ->
  mode_is_RGBA (fr_mode f) = false ->
  frame_ok f ->
  save_calls (process w input_path output_path threshold).1
  = [mkSaveCall (transformed threshold f) false [] None None (Some 0) None].
Proof.
  intros Hopen Hcur Hmode (px & Hpx & Hlen).
  unfold process, process_image, open_image, encode, save. simpl.
  rewrite Hopen. simpl.
  unfold mode, convert_RGBA. rewrite Hcur. simpl. rewrite Hmode, Hpx. simpl.
  rewrite (frames_loop_all threshold 0); simpl;
    [| lia | repeat constructor; by exists px].
  unfold transformed. simpl. rewrite Hpx.
  destruct (format_is_GIF (format img)); reflexivity.
Qed.

(** C2 (defect of the code): the animated GIF of three frames is written as
    one frame.  Line 24 rebinds [img] to the conversion of the first frame,
    an image in memory on which [seek(1)] raises [EOFError], so the frame
    loop ends after its first turn; the run still reports success. *)
Theorem C2_animated_gif_written_as_one_frame :
  length (frames_of animated_gif) = 3%nat /\
  (let r := remove_white_background (world_of animated_gif)
              input_file output_file 240 in
   (length ∘ written_frames) <$> save_calls r.1 = [1%nat] /\
   r.2 = inr true).
Proof. vm_compute. auto. Qed.

(** C3 (defect of the code, the one of C2): for the animated GIF with
    durations 80, 120, 80 and a loop count, the call of [save] carries
    neither durations nor a loop count, since only one frame was
    produced. *)
Theorem C3_animated_gif_written_without_timing :
  duration_of <$> frames_of animated_gif = [80; 120; 80] /\
  (fun c => (sc_save_all c, sc_duration c, sc_loop c))
    <$> save_calls (remove_white_background (world_of animated_gif)
                      input_file output_file 240).1
  = [(false, None, None)].
Proof. vm_compute. auto. Qed.

(** The sibling path: the same frames in a file that opens in mode
    ['RGBA'] are all written, with their durations (100 for the frame that
    has none) and the loop count. *)
Example animated_png_written_in_full :
  (fun c => (length (written_frames c), sc_duration c, sc_loop c))
    <$> save_calls (remove_white_background (world_of animated_png)
                      input_file output_file 240).1
  = [(3%nat, Some [80; 100; 80], Some 2)].
Proof. vm_compute. reflexivity. Qed.

(** C7: when exactly one frame was produced, [save] is called once, on that
    frame, with [transparency=0] and nothing else: no [save_all], no
    appended frames, no duration, no loop count, no disposal. *)
Theorem C7_single_frame_save w output_path img frames :
  length frames = 1%nat ->
  exists frame,
    frames = [frame] /\
    (encode w output_path img frames).1
    = [EvSave output_path
         (mkSaveCall frame false [] None None (Some 0) None)].
Proof.
  intros Hlen. destruct frames as [|frame [|? ?]]; try discriminate.
  exists frame. split; [reflexivity|].
  unfold encode, save, save_call. reflexivity.
Qed.

Lemma C7_single_frame_save_witness :
  exists frame,
    [transformed 240 scenario_frame] = [frame] /\
    (encode (world_of still_png) output_file still_png
       [transformed 240 scenario_frame]).1
    = [EvSave output_file
         (mkSaveCall frame false [] None None (Some 0) None)].
Proof.
  apply (C7_single_frame_save (world_of still_png) output_file still_png
           [transformed 240 scenario_frame]).
  reflexivity.
Defined.

(** C10: the frame a turn of the loop produces has the width and height of
    the frame it was made from. *)
Theorem C10_frame_size_kept threshold img f :
  current img = inr f ->
  frame_ok f ->
  exists out,
    process_frame threshold img = inr out /\
    size out = inr (fr_width f, fr_height f) /\
    size out = size img.
Proof.
  intros Hcur Hok. exists (transformed threshold f).
  split; [by apply process_frame_ok|].
  unfold size. rewrite Hcur. split; reflexivity.
Qed.

Lemma C10_frame_size_kept_witness :
  exists out,
    process_frame 240 still_png = inr out /\
    size out = inr (2%nat, 2%nat) /\
    size out = size still_png.
Proof.
  apply (C10_frame_size_kept 240 still_png scenario_frame).
  - reflexivity.
  - eexists. split; reflexivity.
Defined.

(** ** What a run prints and touches *)

(** Lines 16-80 open the input once, print at most the warning, and call
    [save] at most once. *)
Lemma process_trace w input_path output_path threshold :
  exists warn saves,
    (process w input_path output_path threshold).1
    = EvOpen input_path :: warn ++ saves /\
    (warn = [] \/ exists fmt, warn = [EvPrint (warning_line input_path fmt)]) /\
    (saves = [] \/ exists call, saves = [EvSave output_path call]).
Proof.
  unfold process, process_image, open_image, encode, save, run_bind, lift,
    emit, print,
    run_ret.
  simpl.
  repeat match goal with
         | |- context [match ?x with _ => _ end] =>
             match type of x with
             | Res _ => idtac
             | sum _ _ => idtac
             | bool => idtac
             | option _ => idtac
             | prod Image _ => idtac
             end;
             destruct x; simpl
         end.
  all: first
    [ solve [exists [], []; repeat split; eauto]
    | solve [eexists [_], []; repeat split; eauto]
    | solve [eexists [], [_]; repeat split; eauto]
    | solve [eexists [_], [_]; repeat split; eauto] ].
Qed.

Lemma warning_not_error input_path fmt p e :
  warning_line input_path fmt <> error_line p e.
Proof. unfold warning_line, error_line. simpl. discriminate. Qed.

Lemma process_printed w input_path output_path threshold :
  Forall (fun l => forall p e, l <> error_line p e)
    (printed (process w input_path output_path threshold).1).
Proof.
  destruct (process_trace w input_path output_path threshold)
    as (warn & saves & -> & Hwarn & Hsaves).
  destruct Hwarn as [-> | [fmt ->]]; destruct Hsaves as [-> | [call ->]];
    simpl; repeat constructor; intros; apply warning_not_error.
Qed.

(** ** The outer handler *)

Lemma string_append_assoc (s1 s2 s3 : string) :
  (s1 +:+ s2) +:+ s3 = s1 +:+ (s2 +:+ s3).
Proof.
  induction s1 as [|c s1 IH]; [reflexivity|].
  change (String c ((s1 +:+ s2) +:+ s3) = String c (s1 +:+ (s2 +:+ s3))).
  by rewrite IH.
Qed.

(** The outcome of the function, from the outcome of lines 16-80. *)
Lemma remove_white_background_outcome w input_path output_path threshold :
  remove_white_background w input_path output_path threshold
  = match process w input_path output_path threshold with
    | (tr, inl e) => (tr ++ [EvPrint (error_line input_path e)], inr false)
    | (tr, inr _) =>
        (tr ++ [EvPrint (success_line input_path);
                EvPrint (saved_line output_path)], inr true)
    end.
Proof.
  unfold remove_white_background, try_except, run_bind, print, emit, run_ret.
  destruct (process w input_path output_path threshold) as [tr [e|[]]];
    reflexivity.
Qed.

Lemma remove_white_background_returns w input_path output_path threshold :
  (remove_white_background w input_path output_path threshold).2
  = inr (match (process w input_path output_path threshold).2 with
         | inl _ => false
         | inr _ => true
         end).
Proof.
  rewrite remove_white_background_outcome.
  destruct (process w input_path output_path threshold) as [tr [e|u]];
    reflexivity.
Qed.

(** C4: an exception raised anywhere in lines 16-80 is caught on line 86:
    the function prints one more line, the error line, which ends with the
    exception's message, and returns [False]; nothing is re-raised.  When
    no exception is raised it prints the two confirmation lines, which end
    with the input path and the output path, and returns [True].  No line
    printed before is an error line. *)
Theorem C4_catch_all w input_path output_path threshold :
  match process w input_path output_path threshold with
  | (tr, inl e) =>
      remove_white_background w input_path output_path threshold
      = (tr ++ [EvPrint (error_line input_path e)], inr false) /\
      (exists prefix, error_line input_path e = prefix +:+ exc_msg e)
  | (tr, inr _) =>
      remove_white_background w input_path output_path threshold
      = (tr ++ [EvPrint (success_line input_path);
                EvPrint (saved_line output_path)], inr true) /\
      (exists prefix, success_line input_path = prefix +:+ input_path) /\
      (exists prefix, saved_line output_path = prefix +:+ output_path)
  end /\
  Forall (fun l => forall p e, l <> error_line p e)
    (printed (process w input_path output_path threshold).1).
Proof.
  split; [|apply process_printed].
  rewrite remove_white_background_outcome.
  destruct (process w input_path output_path threshold) as [tr [e|[]]].
  - split; [reflexivity|].
    exists (("❌ Error processing " +:+ input_path) +:+ ": ").
    unfold error_line. by rewrite !string_append_assoc.
  - repeat split; eexists; reflexivity.
Qed.

(** The disk is full: the error line carries the message of the
    [OSError], and the result is [False]. *)
Example disk_full_reported :
  let r := remove_white_background (world_disk_full still_png)
             input_file output_file 240 in
  last r.1 = Some (EvPrint (error_line input_file
                              (mkExc OSError "No space left on device"))) /\
  r.2 = inr false.
Proof. vm_compute. auto. Qed.

(** ** The exit code *)

(** C5: the exit code is 0 or 1.  Without the input file it is 1, and the
    run consists of the test for the file and the line that reports it:
    [Image.open] is never called.  With the input file it is 1 when the
    directory cannot be made or when lines 16-80 raise, and 0 when they
    complete. *)
Theorem C5_exit_codes w :
  ((main w).2 = 0 \/ (main w).2 = 1) /\
  (os_path_exists w input_file = false ->
   main w = ([EvExists input_file;
              EvPrint ("❌ Input file not found: " +:+ input_file)], 1) /\
   opened (main w).1 = []) /\
  (os_path_exists w input_file = true ->
   (forall e, os_makedirs w (dirname output_file) = Some e -> (main w).2 = 1) /\
   (os_makedirs w (dirname output_file) = None ->
    (forall e, (process w input_file output_file 240).2 = inl e ->
               (main w).2 = 1) /\
    ((process w input_file output_file 240).2 = inr tt -> (main w).2 = 0))).
Proof.
  unfold main, main_block, path_exists, makedirs, run_bind, emit, lift,
    run_ret, print.
  pose proof (remove_white_background_returns w input_file output_file 240)
    as Hret.
  destruct (remove_white_background w input_file output_file 240)
    as [tr r]. simpl in Hret. subst r.
  destruct (os_path_exists w input_file);
    destruct (os_makedirs w (dirname output_file)) as [e0|];
    destruct ((process w input_file output_file 240).2) as [e1|[]]; simpl;
    repeat split; auto; try discriminate; intros; discriminate.
Qed.

Lemma C5_exit_codes_witness :
  main world_without_input
  = ([EvExists input_file;
      EvPrint ("❌ Input file not found: " +:+ input_file)], 1) /\
  opened (main world_without_input).1 = [].
Proof.
  apply (C5_exit_codes world_without_input). reflexivity.
Defined.

(** The exit code of a run on a still image, and of a run on a full disk. *)
Example exit_code_success : (main (world_of still_png)).2 = 0.
Proof. vm_compute. reflexivity. Qed.

Example exit_code_failure : (main (world_disk_full still_png)).2 = 1.
Proof. vm_compute. reflexivity. Qed.

(** ** The format name *)

(** Nothing after line 20 reads [img.format]. *)
Section Format.

Variable fmt : option string.

Lemma current_format img : current (with_format fmt img) = current img.
Proof. reflexivity. Qed.

Lemma process_frame_format threshold img :
  process_frame threshold (with_format fmt img) = process_frame threshold img.
Proof. reflexivity. Qed.

Lemma seek_format img n :
  seek (with_format fmt img) n
  = match seek img n with
    | inl e => inl e
    | inr img' => inr (with_format fmt img')
    end.
Proof. unfold seek. simpl. by case_bool_decide. Qed.

Lemma frames_loop_format threshold n : forall img frames,
  (length (frames_of img) - tell img <= n)%nat ->
  frames_loop threshold (with_format fmt img) frames
  = match frames_loop threshold img frames with
    | inl e => inl e
    | inr (img', frames') => inr (with_format fmt img', frames')
    end.
Proof.
  induction n as [|n IH]; intros img frames Hn;
    rewrite (frames_loop_turn _ (with_format fmt img)),
      (frames_loop_turn _ img), process_frame_format, seek_format;
    destruct (process_frame threshold img) as [e|frame];
    try (destruct (is_EOFError e); reflexivity);
    unfold seek; simpl; case_bool_decide as Hlt;
    try reflexivity; try lia.
  apply IH. simpl. lia.
Qed.

Lemma durations_loop_format n : forall img durations,
  (length (frames_of img) - tell img <= n)%nat ->
  durations_loop (with_format fmt img) durations
  = match durations_loop img durations with
    | inl e => inl e
    | inr (img', durations') => inr (with_format fmt img', durations')
    end.
Proof.
  induction n as [|n IH]; intros img durations Hn;
    rewrite (durations_loop_turn (with_format fmt img)),
      (durations_loop_turn img), seek_format;
    change (info (with_format fmt img)) with (info img);
    destruct (info img) as [e|d];
    try (destruct (is_EOFError e); reflexivity);
    unfold seek; simpl; case_bool_decide as Hlt;
    try reflexivity; try lia.
  apply IH. simpl. lia.
Qed.

Lemma save_call_format img frames :
  save_call (with_format fmt img) frames = save_call img frames.
Proof.
  unfold save_call. case_bool_decide; [|reflexivity].
  assert (read_durations (with_format fmt img)
          = match read_durations img with
            | inl e => inl e
            | inr (img', durations) => inr (with_format fmt img', durations)
            end) as ->.
  { unfold read_durations. rewrite seek_format.
    destruct (seek img 0) as [e|img0]; [by destruct (is_EOFError e)|].
    apply (durations_loop_format (length (frames_of img0) - tell img0)).
    lia. }
  destruct (read_durations img) as [e|[img1 durations]]; reflexivity.
Qed.

End Format.

Lemma process_image_format fmt w output_path threshold img :
  process_image w output_path threshold (with_format fmt img)
  = process_image w output_path threshold img.
Proof.
  unfold process_image, encode, lift, run_bind.
  change (mode (with_format fmt img)) with (mode img).
  destruct (mode img) as [e|m]; [reflexivity|].
  destruct (mode_is_RGBA m).
  - rewrite (frames_loop_format fmt threshold
               (length (frames_of img) - tell img)) by lia.
    destruct (frames_loop threshold img []) as [e|[img' frames]];
      [reflexivity|].
    by rewrite save_call_format.
  - reflexivity.
Qed.

(** C8: an image that is not a GIF is processed as the same image under
    the format name GIF would be: the run differs by the warning line,
    printed right after the file is opened, and by nothing else; every
    later event and the result are the same. *)
Theorem C8_not_gif_only_warns w input_path output_path threshold img :
  Image_open w input_path = inr img ->
  format_is_GIF (format img) = false ->
  exists rest outcome,
    remove_white_background w input_path output_path threshold
    = (EvOpen input_path
       :: EvPrint (warning_line input_path (format img)) :: rest, outcome) /\
    remove_white_background (as_gif w) input_path output_path threshold
    = (EvOpen input_path :: rest, outcome).
Proof.
  intros Hopen Hfmt.
  rewrite !remove_white_background_outcome.
  unfold process, open_image, run_bind, emit, lift, print. simpl.
  rewrite Hopen, Hfmt. simpl.
  change (process_image (as_gif w)) with (process_image w).
  rewrite process_image_format.
  destruct (process_image w output_path threshold img) as [tr [e|u]];
    simpl; eexists _, _; split; reflexivity.
Qed.

Lemma C8_not_gif_only_warns_witness :
  exists rest outcome,
    remove_white_background (world_of still_png) input_file output_file 240
    = (EvOpen input_file
       :: EvPrint (warning_line input_file (Some "PNG")) :: rest, outcome) /\
    remove_white_background (as_gif (world_of still_png))
      input_file output_file 240
    = (EvOpen input_file :: rest, outcome).
Proof.
  apply (C8_not_gif_only_warns (world_of still_png) input_file output_file
           240 still_png); reflexivity.
Defined.

(** * Further properties of the code *)

(** ** The transform, on whole rasters *)

Lemma clear_if_white_min t1 t2 p :
  clear_if_white t2 (clear_if_white t1 p) = clear_if_white (Z.min t1 t2) p.
Proof.
  destruct p as [[[r g] b] a]. unfold clear_if_white.
  repeat case_bool_decide; simpl; repeat case_bool_decide; simpl;
    try reflexivity; lia.
Qed.

Lemma clear_if_white_ok threshold p :
  pixel_ok p -> pixel_ok (clear_if_white threshold p).
Proof.
  destruct p as [[[r g] b] a]. unfold clear_if_white, pixel_ok, channel_ok.
  destruct (bool_decide (r > threshold) && bool_decide (g > threshold)
            && bool_decide (b > threshold)); lia.
Qed.

Lemma getpixel_fmap (g : Pixel -> Pixel) f px x y p :
  fr_pixels f = inr px ->
  getpixel f x y = inr p ->
  getpixel (with_pixels f (g <$> px)) x y = inr (g p).
Proof.
  intros Hpx Hget. unfold getpixel in *. rewrite Hpx in Hget. simpl in *.
  destruct (bool_decide (x < fr_width f)%nat && bool_decide (y < fr_height f)%nat);
    [|discriminate].
  rewrite list_lookup_fmap.
  destruct (px !! (y * fr_width f + x)%nat) as [q|]; [|discriminate].
  by injection Hget as ->.
Qed.

(** X1: running the transform with one threshold and then with another is
    running it once with the smaller of the two; in particular the order
    of two runs does not matter. *)
Theorem X1_thresholds_compose t1 t2 f :
  frame_ok f ->
  exists f1 f2,
    make_white_transparent t1 f = inr f1 /\
    make_white_transparent t2 f1 = inr f2 /\
    make_white_transparent (Z.min t1 t2) f = inr f2.
Proof.
  intros (px & Hpx & Hlen).
  exists (with_pixels f (clear_if_white t1 <$> px)),
         (with_pixels f (clear_if_white (Z.min t1 t2) <$> px)).
  split; [by apply make_white_transparent_map|].
  split; [|by apply make_white_transparent_map].
  rewrite (make_white_transparent_map _ _ (clear_if_white t1 <$> px));
    [|reflexivity|by rewrite length_fmap].
  unfold with_pixels. simpl. do 3 f_equal.
  rewrite <- list_fmap_compose. apply list_fmap_ext.
  intros i p _. apply clear_if_white_min.
Qed.

Lemma X1_thresholds_compose_witness :
  exists f1 f2,
    make_white_transparent 252 scenario_frame = inr f1 /\
    make_white_transparent 240 f1 = inr f2 /\
    make_white_transparent (Z.min 252 240) scenario_frame = inr f2.
Proof.
  apply (X1_thresholds_compose 252 240 scenario_frame).
  eexists. split; reflexivity.
Defined.

(** X2: a negative threshold is accepted as it is, and then every pixel of
    a frame of 8-bit pixels is made transparent, its colour kept. *)
Theorem X2_negative_threshold_clears_all threshold f :
  threshold < 0 ->
  frame_ok f ->
  (forall px, fr_pixels f = inr px -> Forall pixel_ok px) ->
  exists f',
    make_white_transparent threshold f = inr f' /\
    forall x y r g b a,
      getpixel f x y = inr (r, g, b, a) ->
      getpixel f' x y = inr (r, g, b, 0).
Proof.
  intros Ht (px & Hpx & Hlen) Hok.
  exists (with_pixels f (clear_if_white threshold <$> px)).
  split; [by apply make_white_transparent_map|].
  intros x y r g b a Hget.
  rewrite (getpixel_fmap _ _ _ _ _ _ Hpx Hget).
  assert (pixel_ok (r, g, b, a)) as (Hr & Hg & Hb & _).
  { unfold getpixel in Hget. rewrite Hpx in Hget. simpl in Hget.
    destruct (bool_decide (x < fr_width f)%nat
              && bool_decide (y < fr_height f)%nat); [|discriminate].
    destruct (px !! (y * fr_width f + x)%nat) as [q|] eqn:Hq; [|discriminate].
    injection Hget as ->.
    eapply Forall_lookup_1; [exact (Hok px Hpx)|exact Hq]. }
  unfold channel_ok in *. simpl.
  by rewrite !bool_decide_eq_true_2 by lia.
Qed.

Lemma X2_negative_threshold_clears_all_witness :
  exists f',
    make_white_transparent (-1) scenario_frame = inr f' /\
    forall x y r g b a,
      getpixel scenario_frame x y = inr (r, g, b, a) ->
      getpixel f' x y = inr (r, g, b, 0).
Proof.
  apply (X2_negative_threshold_clears_all (-1) scenario_frame).
  - lia.
  - eexists. split; reflexivity.
  - intros px [= <-]. repeat constructor; unfold channel_ok; lia.
Defined.

(** X3: the transform keeps a frame well formed: the result has the mode,
    the size and the [info] of the frame, a raster of the same length, and
    8-bit channels when the frame has. *)
Theorem X3_transform_keeps_frame_valid threshold f :
  frame_ok f ->
  (forall px, fr_pixels f = inr px -> Forall pixel_ok px) ->
  exists f',
    make_white_transparent threshold f = inr f' /\
    fr_mode f' = fr_mode f /\
    fr_info f' = fr_info f /\
    (fr_width f', fr_height f') = (fr_width f, fr_height f) /\
    frame_ok f' /\
    (forall px', fr_pixels f' = inr px' -> Forall pixel_ok px').
Proof.
  intros (px & Hpx & Hlen) Hok.
  exists (with_pixels f (clear_if_white threshold <$> px)).
  split; [by apply make_white_transparent_map|].
  repeat split.
  - eexists. split; [reflexivity|]. by rewrite length_fmap.
  - intros px' [= <-]. apply Forall_fmap.
    eapply Forall_impl; [exact (Hok px Hpx)|].
    intros p Hp. by apply clear_if_white_ok.
Qed.

Lemma X3_transform_keeps_frame_valid_witness :
  exists f',
    make_white_transparent 240 scenario_frame = inr f' /\
    fr_mode f' = fr_mode scenario_frame /\
    fr_info f' = fr_info scenario_frame /\
    (fr_width f', fr_height f')
    = (fr_width scenario_frame, fr_height scenario_frame) /\
    frame_ok f' /\
    (forall px', fr_pixels f' = inr px' -> Forall pixel_ok px').
Proof.
  apply (X3_transform_keeps_frame_valid 240 scenario_frame).
  - eexists. split; reflexivity.
  - intros px [= <-]. repeat constructor; unfold channel_ok; lia.
Defined.

(** ** Whole runs of the function *)

(** The handler and the confirmation lines add prints only. *)
Lemma remove_white_background_trace w input_path output_path threshold :
  exists lines,
    (remove_white_background w input_path output_path threshold).1
    = (process w input_path output_path threshold).1 ++ (EvPrint <$> lines).
Proof.
  rewrite remove_white_background_outcome.
  destruct (process w input_path output_path threshold) as [tr [e|u]]; simpl.
  - by exists [error_line input_path e].
  - by exists [success_line input_path; saved_line output_path].
Qed.

Lemma save_calls_prints lines : save_calls (EvPrint <$> lines) = [].
Proof. induction lines; [reflexivity|assumption]. Qed.

Lemma saved_paths_prints lines : saved_paths (EvPrint <$> lines) = [].
Proof. induction lines; [reflexivity|assumption]. Qed.

Lemma opened_prints lines : opened (EvPrint <$> lines) = [].
Proof. induction lines; [reflexivity|assumption]. Qed.

Lemma remove_white_background_save_calls w input_path output_path threshold :
  save_calls (remove_white_background w input_path output_path threshold).1
  = save_calls (process w input_path output_path threshold).1.
Proof.
  destruct (remove_white_background_trace w input_path output_path threshold)
    as [lines ->].
  unfold save_calls at 1. rewrite omap_app. fold (save_calls (EvPrint <$> lines)).
  rewrite save_calls_prints. apply app_nil_r.
Qed.



(** The call of [save] can always be built from one frame or more. *)
Lemma save_call_total img first rest :
  frames_of img <> [] ->
  exists call,
    save_call img (first :: rest) = inr call /\
    written_frames call = first :: rest.
Proof.
  intros Hne. destruct rest as [|second rest].
  - eexists. split; reflexivity.
  - destruct (last (frames_of img)) as [lf|] eqn:Hlast.
    + eexists. split; [by apply (save_call_animated _ _ _ lf)|reflexivity].
    + apply last_None in Hlast. contradiction.
Qed.

(** Lines 22-80 on an image all of whose frames decode: one call of
    [save], and the outcome is the outcome of that call. *)
Lemma process_image_decodable w output_path threshold img :
  (tell img < length (frames_of img))%nat ->
  Forall frame_ok (frames_of img) ->
  exists call,
    process_image w output_path threshold img
    = ([EvSave output_path call],
       match Image_save w output_path call with
       | Some e => inl e
       | None => inr tt
       end).
Proof.
  intros Hpos Hok. destruct img as [fmt fs pos]. simpl in *.
  destruct (lookup_lt_is_Some_2 fs pos Hpos) as [f Hf].
  assert (frame_ok f) as Hokf by (eapply Forall_lookup_1; eassumption).
  unfold process_image, encode, save, lift, run_bind, emit, mode, current.
  simpl. rewrite Hf. simpl.
  destruct (mode_is_RGBA (fr_mode f)) eqn:Hmode.
  - rewrite (frames_loop_all threshold (length fs - pos - 1));
      [|simpl; lia|simpl; by apply Forall_drop].
    cbn [tell frames_of app]. rewrite (drop_S _ _ _ Hf), fmap_cons.
    destruct (save_call_total (at_last (mkImage fmt fs pos))
                (transformed threshold f)
                (transformed threshold <$> drop (S pos) fs))
      as (call & -> & _); [by destruct fs|].
    by exists call.
  - destruct Hokf as (px & Hpx & Hlen).
    unfold convert_RGBA, current. simpl. rewrite Hf. simpl. rewrite Hpx.
    simpl.
    rewrite (frames_loop_all threshold 0); simpl;
      [|lia|repeat constructor; by exists px].
    eexists. reflexivity.
Qed.

Lemma process_decodable w input_path output_path threshold img :
  Image_open w input_path = inr img ->
  (tell img < length (frames_of img))%nat ->
  Forall frame_ok (frames_of img) ->
  exists call,
    process w input_path output_path threshold
    = (EvOpen input_path
       :: (if format_is_GIF (format img) then []
           else [EvPrint (warning_line input_path (format img))])
       ++ [EvSave output_path call],
       match Image_save w output_path call with
       | Some e => inl e
       | None => inr tt
       end).
Proof.
  intros Hopen Hpos Hok.
  destruct (process_image_decodable w output_path threshold img Hpos Hok)
    as [call Hcall].
  exists call. unfold process, open_image, run_bind, emit, lift, print.
  simpl. rewrite Hopen, Hcall.
  destruct (format_is_GIF (format img)); reflexivity.
Qed.

(** X8: for an image all of whose frames decode, the function calls [save]
    exactly once, returns [True] exactly when that call does not raise, and
    when it raises the last line printed is the error line with the
    message of that exception. *)
Theorem X8_outcome_is_outcome_of_save
    w input_path output_path threshold img :
  Image_open w input_path = inr img ->
  (tell img < length (frames_of img))%nat ->
  Forall frame_ok (frames_of img) ->
  let r := remove_white_background w input_path output_path threshold in
  exists call,
    save_calls r.1 = [call] /\
    saved_paths r.1 = [output_path] /\
    match Image_save w output_path call with
    | None => r.2 = inr true
    | Some e =>
        r.2 = inr false /\
        last r.1 = Some (EvPrint (error_line input_path e))
    end.
Proof.
  intros Hopen Hpos Hok r. subst r.
  destruct (process_decodable w input_path output_path threshold img
              Hopen Hpos Hok) as [call Hcall].
  exists call. rewrite remove_white_background_outcome, Hcall.
  destruct (format_is_GIF (format img));
    destruct (Image_save w output_path call) as [e|]; simpl;
    repeat split; reflexivity.
Qed.

Lemma X8_outcome_is_outcome_of_save_witness :
  let r := remove_white_background (world_disk_full animated_png)
             input_file output_file 240 in
  exists call,
    save_calls r.1 = [call] /\
    saved_paths r.1 = [output_file] /\
    match Image_save (world_disk_full animated_png) output_file call with
    | None => r.2 = inr true
    | Some e =>
        r.2 = inr false /\
        last r.1 = Some (EvPrint (error_line input_file e))
    end.
Proof.
  apply (X8_outcome_is_outcome_of_save (world_disk_full animated_png)
           input_file output_file 240 animated_png).
  - reflexivity.
  - simpl. lia.
  - repeat constructor; eexists; split; reflexivity.
Defined.

(** X5: an image of one decodable frame, in any mode, is written by the
    single-frame call: the transformed frame in mode ['RGBA'], with
    transparency 0 and no other argument. *)
Theorem X5_still_image_written
    w input_path output_path threshold img f :
  Image_open w input_path = inr img ->
  frames_of img = [f] ->
  tell img = 0%nat ->
  frame_ok f ->
  save_calls (remove_white_background w input_path output_path threshold).1
  = [mkSaveCall (transformed threshold f) false [] None None (Some 0) None].
Proof.
  intros Hopen Hfs Hpos Hokf.
  rewrite remove_white_background_save_calls.
  destruct (mode_is_RGBA (fr_mode f)) eqn:Hmode.
  - destruct img as [fmt fs pos]. simpl in *. subst fs pos.
    unfold process, process_image, open_image, encode, save. simpl.
    rewrite Hopen. simpl. unfold mode, current. simpl. rewrite Hmode. simpl.
    rewrite (frames_loop_all threshold 0); simpl;
      [|lia|by repeat constructor].
    destruct (format_is_GIF fmt); reflexivity.
  - apply (process_converted_source _ _ _ _ img); try done.
    unfold current. by rewrite Hfs, Hpos.
Qed.

Lemma X5_still_image_written_witness :
  save_calls (remove_white_background (world_of still_png)
                input_file output_file 240).1
  = [mkSaveCall (transformed 240 scenario_frame) false [] None None
       (Some 0) None].
Proof.
  apply (X5_still_image_written (world_of still_png) input_file output_file
           240 still_png scenario_frame).
  - reflexivity.
  - reflexivity.
  - reflexivity.
  - eexists. split; reflexivity.
Defined.

(** X6: when the frame the image is opened on is not in mode ['RGBA'], the
    function writes one frame, the transformed first frame, through the
    single-frame call, whatever the number of frames of the file; the
    other frames are not decoded. *)
Theorem X6_converted_source_written_as_one_frame
    w input_path output_path threshold img f :
  Image_open w input_path = inr img ->
  current img = inr f ->
  mode_is_RGBA (fr_mode f) = false ->
  frame_ok f ->
  save_calls (remove_white_background w input_path output_path threshold).1
  = [mkSaveCall (transformed threshold f) false [] None None (Some 0) None].
Proof.
  intros Hopen Hcur Hmode Hokf.
  rewrite remove_white_background_save_calls.
  by apply (process_converted_source _ _ _ _ img).
Qed.

Lemma X6_converted_source_written_as_one_frame_witness :
  save_calls (remove_white_background (world_of animated_gif)
                input_file output_file 240).1
  = [mkSaveCall
       (transformed 240
          (sample_frame mode_P (255, 255, 255, 255)
             [("duration", 80); ("loop", 0)]))
       false [] None None (Some 0) None].
Proof.
  apply (X6_converted_source_written_as_one_frame (world_of animated_gif)
           input_file output_file 240 animated_gif).
  - reflexivity.
  - reflexivity.
  - reflexivity.
  - eexists. split; reflexivity.
Defined.

(** X7: when [Image.open] raises, nothing else is attempted: the run is
    the call of [open] and the error line with the message of that
    exception, no warning is printed, [save] is not called, and the result
    is [False]. *)
Theorem X7_open_failure w input_path output_path threshold e :
  Image_open w input_path = inl e ->
  remove_white_background w input_path output_path threshold
  = ([EvOpen input_path; EvPrint (error_line input_path e)], inr false).
Proof.
  intros Hopen. rewrite remove_white_background_outcome.
  unfold process, open_image, run_bind, emit, lift. simpl.
  by rewrite Hopen.
Qed.

Lemma X7_open_failure_witness :
  remove_white_background world_without_input input_file output_file 240
  = ([EvOpen input_file;
      EvPrint (error_line input_file
                 (mkExc FileNotFoundError "No such file or directory"))],
     inr false).
Proof.
  apply (X7_open_failure world_without_input input_file output_file 240).
  reflexivity.
Defined.

(** A frame that fails to decode, with an exception other than
    [EOFError], ends the frame loop with that exception. *)
Lemma frames_loop_damaged threshold bad rest e good : forall img frames,
  drop (tell img) (frames_of img) = good ++ bad :: rest ->
  Forall frame_ok good ->
  fr_pixels bad = inl e ->
  is_EOFError e = false ->
  frames_loop threshold img frames = inl e.
Proof.
  induction good as [|g good IH]; intros [fmt fs pos] frames Hdrop Hok Hbad He;
    simpl in *; rewrite frames_loop_turn.
  - assert (fs !! pos = Some bad) as Hf.
    { rewrite <- (Nat.add_0_r pos), <- lookup_drop. by rewrite Hdrop. }
    unfold process_frame, copy, current. simpl. rewrite Hf. simpl.
    rewrite Hbad. simpl. by rewrite He.
  - assert (fs !! pos = Some g) as Hf.
    { rewrite <- (Nat.add_0_r pos), <- lookup_drop. by rewrite Hdrop. }
    apply Forall_cons in Hok as [Hokg Hok].
    rewrite (process_frame_ok threshold _ g)
      by (done || (unfold current; simpl; by rewrite Hf)).
    rewrite (drop_S _ _ _ Hf) in Hdrop. injection Hdrop as Hdrop.
    assert (pos + 1 < length fs)%nat as Hlt.
    { apply (f_equal length) in Hdrop.
      rewrite length_drop, length_app in Hdrop. simpl in Hdrop. lia. }
    unfold seek. simpl. rewrite bool_decide_eq_true_2 by done.
    apply IH; simpl; try done.
    by replace (pos + 1)%nat with (S pos) by lia.
Qed.

(** X9: in an image that opens in mode ['RGBA'], a frame whose data fail
    to decode with an exception other than [EOFError] makes the whole run
    fail: [save] is never called, also not for the frames before it, the
    last line printed is the error line with that exception's message and
    the result is [False]. *)
Theorem X9_damaged_frame_nothing_written
    w input_path output_path threshold img first good bad rest e :
  Image_open w input_path = inr img ->
  tell img = 0%nat ->
  frames_of img = good ++ bad :: rest ->
  frames_of img !! 0%nat = Some first ->
  fr_mode first = mode_RGBA ->
  Forall frame_ok good ->
  fr_pixels bad = inl e ->
  is_EOFError e = false ->
  let r := remove_white_background w input_path output_path threshold in
  save_calls r.1 = [] /\
  last r.1 = Some (EvPrint (error_line input_path e)) /\
  r.2 = inr false.
Proof.
  intros Hopen Hpos Hfs Hfirst Hmode Hok Hbad He r. subst r.
  rewrite remove_white_background_outcome.
  unfold process, process_image, open_image, run_bind, emit, lift, print.
  simpl. rewrite Hopen. simpl.
  unfold mode, current. rewrite Hpos, Hfirst. simpl. rewrite Hmode. simpl.
  rewrite (frames_loop_damaged threshold bad rest e good)
    by (done || by rewrite Hpos).
  destruct (format_is_GIF (format img)); simpl; repeat split; reflexivity.
Qed.

Lemma X9_damaged_frame_nothing_written_witness :
  let r := remove_white_background (world_of damaged_png)
             input_file output_file 240 in
  save_calls r.1 = [] /\
  last r.1
  = Some (EvPrint (error_line input_file
                     (mkExc OSError "image file is truncated"))) /\
  r.2 = inr false.
Proof.
  apply (X9_damaged_frame_nothing_written (world_of damaged_png)
           input_file output_file 240 damaged_png
           (sample_frame mode_RGBA (255, 255, 255, 255) [("duration", 80)])
           [sample_frame mode_RGBA (255, 255, 255, 255) [("duration", 80)]]
           (mkFrame mode_RGBA 1 1
              (raise (mkExc OSError "image file is truncated"))
              (list_to_map [("duration", 120)]))
           [sample_frame mode_RGBA (250, 250, 250, 255) [("duration", 80)]]).
  - reflexivity.
  - reflexivity.
  - reflexivity.
  - reflexivity.
  - reflexivity.
  - repeat constructor; eexists; split; reflexivity.
  - reflexivity.
  - reflexivity.
Defined.

(** When lines 16-80 complete, [save] was called once and did not raise. *)
Lemma process_success_saved w input_path output_path threshold tr u :
  process w input_path output_path threshold = (tr, inr u) ->
  exists call,
    save_calls tr = [call] /\
    Image_save w output_path call = None.
Proof.
  unfold process, process_image, open_image, encode, save, run_bind, lift,
    emit, print, run_ret.
  simpl. intros H.
  repeat match type of H with
         | context [match ?x with _ => _ end] =>
             match type of x with
             | Res _ => idtac
             | sum _ _ => idtac
             | bool => idtac
             | option _ => idtac
             | prod Image _ => idtac
             end;
             destruct x eqn:?; simpl in H
         end.
  all: try discriminate.
  all: injection H as <- _; eexists; split; [reflexivity|assumption].
Qed.

(** X10: exit code 0 means the output was written: the input file exists,
    it was opened, and [save] was called once, on the output path, and did
    not raise. *)
Theorem X10_exit_0_means_saved w :
  (main w).2 = 0 ->
  os_path_exists w input_file = true /\
  opened (main w).1 = [input_file] /\
  saved_paths (main w).1 = [output_file] /\
  exists call,
    save_calls (main w).1 = [call] /\
    Image_save w output_file call = None.
Proof.
  unfold main, main_block, path_exists, makedirs, run_bind, emit, lift,
    run_ret, print.
  rewrite remove_white_background_outcome.
  destruct (process_trace w input_file output_file 240)
    as (warn & saves & Htr & Hwarn & Hsaves).
  destruct (process w input_file output_file 240) as [tr [e|u]] eqn:Hp;
    destruct (os_path_exists w input_file);
    destruct (os_makedirs w (dirname output_file)) as [e0|]; simpl;
    intros Hcode; try discriminate.
  destruct (process_success_saved _ _ _ _ _ _ Hp) as (call & Hcalls & Hsave).
  simpl in Htr. subst tr.
  destruct Hwarn as [-> | [fmt ->]]; destruct Hsaves as [-> | [c ->]];
    simpl in Hcalls; try discriminate; injection Hcalls as ->;
    repeat split; try reflexivity; exists call; by split.
Qed.

Lemma X10_exit_0_means_saved_witness :
  os_path_exists (world_of still_png) input_file = true /\
  opened (main (world_of still_png)).1 = [input_file] /\
  saved_paths (main (world_of still_png)).1 = [output_file] /\
  exists call,
    save_calls (main (world_of still_png)).1 = [call] /\
    Image_save (world_of still_png) output_file call = None.
Proof.
  apply (X10_exit_0_means_saved (world_of still_png)).
  vm_compute. reflexivity.
Defined.



(** X12: whatever the world answers, the function opens the input path
    once and no other path, calls [save] at most once and only on the
    output path, and does nothing but open, save and print. *)
Theorem X12_function_touches_two_paths w input_path output_path threshold :
  let tr := (remove_white_background w input_path output_path threshold).1 in
  opened tr = [input_path] /\
  (saved_paths tr = [] \/ saved_paths tr = [output_path]) /\
  forallb function_event tr = true.
Proof.
  simpl.
  destruct (remove_white_background_trace w input_path output_path threshold)
    as [lines ->].
  destruct (process_trace w input_path output_path threshold)
    as (warn & saves & -> & Hwarn & Hsaves).
  unfold opened, saved_paths. rewrite !omap_app, forallb_app.
  fold (opened (EvPrint <$> lines)). fold (saved_paths (EvPrint <$> lines)).
  rewrite opened_prints, saved_paths_prints, !app_nil_r.
  assert (forallb function_event (EvPrint <$> lines) = true) as ->
    by (induction lines; [reflexivity|assumption]).
  destruct Hwarn as [-> | [fmt ->]]; destruct Hsaves as [-> | [c ->]];
    simpl; auto.
Qed.

(** X13: the output directory is made after the test for the input file
    and before the image is opened.  When making it raises, the exception
    is not caught: the interpreter reports it, the exit code is 1, and the
    image is never opened; otherwise the run continues with the function. *)
Theorem X13_directory_made_before_open w :
  os_path_exists w input_file = true ->
  match os_makedirs w (dirname output_file) with
  | Some e =>
      main w = ([EvExists input_file; EvMakedirs (dirname output_file);
                 EvTraceback e], 1)
  | None =>
      (main w).1
      = EvExists input_file :: EvMakedirs (dirname output_file)
        :: (remove_white_background w input_file output_file 240).1
  end.
Proof.
  intros Hexists.
  unfold main, main_block, path_exists, makedirs, run_bind, emit, lift,
    run_ret, print.
  rewrite Hexists. simpl.
  pose proof (remove_white_background_returns w input_file output_file 240)
    as Hret.
  destruct (os_makedirs w (dirname output_file)) as [e|]; [reflexivity|].
  destruct (remove_white_background w input_file output_file 240)
    as [tr r]. simpl in Hret. subst r. simpl. by rewrite app_nil_r.
Qed.

Lemma X13_directory_made_before_open_witness :
  match os_makedirs (world_read_only still_png) (dirname output_file) with
  | Some e =>
      main (world_read_only still_png)
      = ([EvExists input_file; EvMakedirs (dirname output_file);
          EvTraceback e], 1)
  | None =>
      (main (world_read_only still_png)).1
      = EvExists input_file :: EvMakedirs (dirname output_file)
        :: (remove_white_background (world_read_only still_png)
              input_file output_file 240).1
  end.
Proof.
  apply (X13_directory_made_before_open (world_read_only still_png)).
  reflexivity.
Defined.
